(** * The state-switch shell of the game engine ([engine/core.py])

    [Core] is the application window.  It owns an optional [World], a
    [GuiState] that always exists, an optional lazily built [InGameState],
    and [current_state], a reference to whichever of the two states is
    active.  Every engine callback is routed to the active state.

    Python objects have identity and are shared by reference, so the model
    keeps a store of objects; the fields of [Core] hold references into it.
    A method of [Core] is a computation over the whole system (the fields,
    the store and the list of calls made on collaborators) that either
    returns or raises, the state at the point of the raise being kept as
    Python keeps it.

    The classes [World], [GuiState], [InGameState] and the game
    specification live in modules of the engine that are not part of the
    files verified here.  A call on one of them is recorded with its
    receiver and its arguments; what is known about them from the
    specification is modelled where a property needs it, and marked so. *)

From Stdlib Require Import ZArith Floats.
From stdpp Require Import base option list strings gmap.

Local Open Scope Z_scope.

(** ** Constants of the module *)

Definition SCREEN_WIDTH : Z := 1000.
Definition SCREEN_HEIGHT : Z := 650.
Definition SCREEN_TITLE : string := "OSSU Game Project".

(** ** Exceptions *)

(** [GameNotInitializedError] is the one exception [Core] raises itself;
    [KeyError] is what indexing a [dict] with an absent key raises. *)
Inductive Exception : Type :=
| GameNotInitializedError
| KeyError (key : string).

(** ** Opaque values handed through the shell

    [scripts.GUI], [spec.SpriteSpec], [scripts.Script], the value type of the
    player-state dictionary and the type of [delta_time] are never inspected
    by [Core]: it only stores them and passes them on. *)
Class Payload : Type := {
  GUI : Type;
  SpriteSpec : Type;
  Script : Type;
  PlayerState : Type;
  Time : Type
}.

(** A reference to an object: its index in the store. *)
Abbreviation ref := nat (only parsing).

(** The handle a collaborator receives to call back into the shell
    ([scripts.GameAPI]); there is one [Core], so one handle. *)
Inductive GameAPI : Type := self.

Section Shell.
Context `{P : Payload}.

(** Modelled from the spec: [spec.GameSpec] is declared in [engine/spec.py];
    the one attribute [Core] reads is [sprites], a dictionary from sprite
    specification names to sprite specifications. *)
Record GameSpec : Type := {
  sprites : gmap string SpriteSpec
}.

(** ** Collaborators *)

(** Modelled from the spec: [world.World] is declared in
    [engine/model/world.py]; recorded here are the arguments it is
    constructed with. *)
Record World : Type := {
  w_api : GameAPI;
  w_spec : GameSpec;
  w_initial_player_state : PlayerState
}.

(** Modelled from the spec: [GuiState] is declared in
    [engine/gui/game_state.py]; it wraps the view and the controller of one
    GUI screen, [set_gui] tells it which screen to display and [setup]
    resets it to its initial configuration. *)
Record GuiState : Type := {
  gs_api : GameAPI;
  gs_initial_gui : GUI;
  gs_gui : GUI
}.

(** Modelled from the spec: [InGameState] is declared in
    [engine/ingame/game_state.py]; it wraps the view and the controller of
    the world it is constructed with. *)
Record InGameState : Type := {
  igs_world : option ref;
  igs_dimensions : Z * Z;
  igs_gui : option GUI
}.

Inductive Obj : Type :=
| AWorld (w : World)
| AGuiState (g : GuiState)
| AnInGameState (i : InGameState).

(** Receivers of the calls [Core] makes: the window itself (its inherited
    [clear]), the [arcade] module, an object of the store, or the [view] or
    [controller] attribute of a state of the store. *)
Inductive Receiver : Type :=
| Window
| Arcade
| Object (r : ref)
| ViewOf (r : ref)
| ControllerOf (r : ref).

(** The methods called on them, with their arguments. *)
Inductive Call : Type :=
| clear_
| arcade_run
| setup_
| set_gui (gui : GUI)
| load_region (name start_location : string)
| create_sprite_ (spec : SpriteSpec) (name : string)
    (start_location : Z * Z) (script : option Script)
| get_key_points_ (name : option string)
| player_state_get
| player_state_set (value : PlayerState)
| on_draw_
| on_key_press_ (symbol modifiers : Z)
| on_key_release_ (symbol modifiers : Z)
| on_mouse_motion_ (x y dx dy : Z)
| on_mouse_release_ (x y button modifiers : Z)
| on_update_ (delta_time : Time).

(** What a method returns: [None], or whatever a call on a collaborator
    returned. *)
Inductive Value : Type :=
| NoneValue
| ResultOf (rcv : Receiver) (c : Call).

(** ** The shell and the system around it *)

Record Core : Type := {
  width : Z;
  height : Z;
  title : string;
  _spec : GameSpec;
  world : option ref;
  initial_gui : GUI;
  ingame_gui : option GUI;
  initial_player_state : PlayerState;
  gui_state : ref;
  ingame_state : option ref;
  current_state : option ref
}.

Record Sys : Type := {
  core : Core;
  store : list Obj;
  calls : list (Receiver * Call)
}.

Definition with_world (v : option ref) (c : Core) : Core :=
  {| width := width c; height := height c; title := title c;
     _spec := _spec c; world := v; initial_gui := initial_gui c;
     ingame_gui := ingame_gui c;
     initial_player_state := initial_player_state c;
     gui_state := gui_state c; ingame_state := ingame_state c;
     current_state := current_state c |}.

Definition with_ingame_state (v : option ref) (c : Core) : Core :=
  {| width := width c; height := height c; title := title c;
     _spec := _spec c; world := world c; initial_gui := initial_gui c;
     ingame_gui := ingame_gui c;
     initial_player_state := initial_player_state c;
     gui_state := gui_state c; ingame_state := v;
     current_state := current_state c |}.

Definition with_current_state (v : option ref) (c : Core) : Core :=
  {| width := width c; height := height c; title := title c;
     _spec := _spec c; world := world c; initial_gui := initial_gui c;
     ingame_gui := ingame_gui c;
     initial_player_state := initial_player_state c;
     gui_state := gui_state c; ingame_state := ingame_state c;
     current_state := v |}.

(** ** Computations that return or raise *)

Definition M (A : Type) : Type := Sys -> (Exception + A) * Sys.

Definition ret {A} (a : A) : M A := fun s => (inr a, s).

Definition raise {A} (e : Exception) : M A := fun s => (inl e, s).

Definition bind {A B} (m : M A) (k : A -> M B) : M B :=
  fun s =>
    match m s with
    | (inl e, s') => (inl e, s')
    | (inr a, s') => k a s'
    end.

Notation "'let*' x := m 'in' k" := (bind m (fun x => k))
  (at level 10, x name, m at level 100, k at level 200).

(** Reading and assigning the attributes of [self]. *)
Definition attr {A} (f : Core -> A) : M A := fun s => (inr (f (core s)), s).

Definition assign (upd : Core -> Core) : M unit :=
  fun s => (inr tt, {| core := upd (core s); store := store s; calls := calls s |}).

(** Constructing an object: it is appended to the store, its reference is
    its index. *)
Definition construct (o : Obj) : M ref :=
  fun s => (inr (length (store s)),
            {| core := core s; store := store s ++ [o]; calls := calls s |}).

(** Calling a method of a collaborator. *)
Definition call (rcv : Receiver) (c : Call) : M Value :=
  fun s => (inr (ResultOf rcv c),
            {| core := core s; store := store s; calls := calls s ++ [(rcv, c)] |}).

(** Modelled from the spec: what [setup] and [set_gui] do to a [GuiState]. *)
Definition gui_state_setup (g : GuiState) : GuiState :=
  {| gs_api := gs_api g; gs_initial_gui := gs_initial_gui g;
     gs_gui := gs_initial_gui g |}.

Definition gui_state_set_gui (gui : GUI) (g : GuiState) : GuiState :=
  {| gs_api := gs_api g; gs_initial_gui := gs_initial_gui g; gs_gui := gui |}.

Definition on_gui_state (f : GuiState -> GuiState) (o : Obj) : Obj :=
  match o with
  | AGuiState g => AGuiState (f g)
  | _ => o
  end.

(** The effect of a call on the receiving [GuiState] object. *)
Definition mutate (r : ref) (f : Obj -> Obj) : M unit :=
  fun s => (inr tt,
            {| core := core s; store := alter f r (store s); calls := calls s |}).

(** ** The methods of [Core] *)

Definition __init__ (initial_gui_f : GameAPI -> GUI) (game_spec : GameSpec)
    (initial_player_state_ : PlayerState)
    (ingame_gui_f : option (GameAPI -> GUI)) : Sys :=
  let gui := initial_gui_f self in
  {| core := {| width := SCREEN_WIDTH; height := SCREEN_HEIGHT;
                title := SCREEN_TITLE;
                _spec := game_spec;
                world := None;
                initial_gui := gui;
                ingame_gui := match ingame_gui_f with
                              | Some f => Some (f self)
                              | None => None
                              end;
                initial_player_state := initial_player_state_;
                gui_state := 0%nat;
                ingame_state := None;
                current_state := None |};
     store := [AGuiState {| gs_api := self; gs_initial_gui := gui; gs_gui := gui |}];
     calls := [] |}.

Definition setup : M Value :=
  let* g := attr gui_state in
  let* _ := call (Object g) setup_ in
  let* _ := mutate g (on_gui_state gui_state_setup) in
  ret NoneValue.

Definition start_game : M Value :=
  let* w := attr world in
  let* _ :=
    match w with
    | None =>
        let* sp := attr _spec in
        let* ps := attr initial_player_state in
        let* r := construct (AWorld {| w_api := self; w_spec := sp;
                                       w_initial_player_state := ps |}) in
        assign (with_world (Some r))
    | Some _ => ret tt
    end in
  let* i := attr ingame_state in
  let* _ :=
    match i with
    | None =>
        let* w := attr world in
        let* wd := attr width in
        let* ht := attr height in
        let* g := attr ingame_gui in
        let* r := construct (AnInGameState {| igs_world := w;
                                              igs_dimensions := (wd, ht);
                                              igs_gui := g |}) in
        let* _ := assign (with_ingame_state (Some r)) in
        let* _ := call (Object r) setup_ in
        ret tt
    | Some _ => ret tt
    end in
  let* i := attr ingame_state in
  let* _ := assign (with_current_state i) in
  ret NoneValue.

Definition change_region (name start_location : string) : M Value :=
  let* w := attr world in
  match w with
  | None => raise GameNotInitializedError
  | Some w =>
      let* _ := call (Object w) (load_region name start_location) in
      ret NoneValue
  end.

Definition show_gui (gui : GUI) : M Value :=
  let* g := attr gui_state in
  let* _ := call (Object g) (set_gui gui) in
  let* _ := mutate g (on_gui_state (gui_state_set_gui gui)) in
  let* _ := assign (with_current_state (Some g)) in
  ret NoneValue.

Definition create_sprite (spec_name name : string) (start_location : Z * Z)
    (script : option Script) : M Value :=
  let* w := attr world in
  match w with
  | None => raise GameNotInitializedError
  | Some w =>
      let* sp := attr _spec in
      match sprites sp !! spec_name with
      | None => raise (KeyError spec_name)
      | Some _spec' =>
          let* _ := call (Object w)
                      (create_sprite_ _spec' name start_location script) in
          ret NoneValue
      end
  end.

Definition get_key_points (name : option string) : M Value :=
  let* w := attr world in
  match w with
  | None => raise GameNotInitializedError
  | Some w => call (Object w) (get_key_points_ name)
  end.

(** The getter and the setter of the [player_state] property. *)
Definition player_state : M Value :=
  let* w := attr world in
  match w with
  | None => raise GameNotInitializedError
  | Some w => call (Object w) player_state_get
  end.

Definition player_state_setter (value : PlayerState) : M Value :=
  let* w := attr world in
  match w with
  | None => raise GameNotInitializedError
  | Some w =>
      let* _ := call (Object w) (player_state_set value) in
      ret NoneValue
  end.

Definition run : M Value :=
  let* _ := setup in
  let* g := attr initial_gui in
  let* _ := show_gui g in
  let* _ := call Arcade arcade_run in
  ret NoneValue.

Definition on_draw : M Value :=
  let* st := attr current_state in
  match st with
  | None => raise GameNotInitializedError
  | Some st =>
      let* _ := call Window clear_ in
      let* _ := call (ViewOf st) on_draw_ in
      ret NoneValue
  end.

Definition on_key_press (symbol modifiers : Z) : M Value :=
  let* st := attr current_state in
  match st with
  | None => raise GameNotInitializedError
  | Some st =>
      let* _ := call (ControllerOf st) (on_key_press_ symbol modifiers) in
      ret NoneValue
  end.

Definition on_key_release (symbol modifiers : Z) : M Value :=
  let* st := attr current_state in
  match st with
  | None => raise GameNotInitializedError
  | Some st =>
      let* _ := call (ControllerOf st) (on_key_release_ symbol modifiers) in
      ret NoneValue
  end.

Definition on_mouse_motion (x y dx dy : Z) : M Value :=
  let* st := attr current_state in
  match st with
  | None => raise GameNotInitializedError
  | Some st =>
      let* _ := call (ControllerOf st) (on_mouse_motion_ x y dx dy) in
      ret NoneValue
  end.

Definition on_mouse_release (x y button modifiers : Z) : M Value :=
  let* st := attr current_state in
  match st with
  | None => raise GameNotInitializedError
  | Some st =>
      let* _ := call (ControllerOf st)
                  (on_mouse_release_ x y button modifiers) in
      ret NoneValue
  end.

Definition on_update (delta_time : Time) : M Value :=
  let* st := attr current_state in
  match st with
  | None => raise GameNotInitializedError
  | Some st =>
      let* _ := call (Object st) (on_update_ delta_time) in
      ret NoneValue
  end.

(** ** Operations and runs

    An operation is one call of a public method of [Core], by the
    application, by the windowing runtime or by a collaborator through its
    [GameAPI] handle. *)
Inductive Op : Type :=
| Setup
| StartGame
| ChangeRegion (name start_location : string)
| ShowGui (gui : GUI)
| CreateSprite (spec_name name : string) (start_location : Z * Z)
    (script : option Script)
| GetKeyPoints (name : option string)
| PlayerStateGet
| PlayerStateSet (value : PlayerState)
| Run
| OnDraw
| OnKeyPress (symbol modifiers : Z)
| OnKeyRelease (symbol modifiers : Z)
| OnMouseMotion (x y dx dy : Z)
| OnMouseRelease (x y button modifiers : Z)
| OnUpdate (delta_time : Time).

Definition perform (o : Op) : M Value :=
  match o with
  | Setup => setup
  | StartGame => start_game
  | ChangeRegion n l => change_region n l
  | ShowGui g => show_gui g
  | CreateSprite sn n l sc => create_sprite sn n l sc
  | GetKeyPoints n => get_key_points n
  | PlayerStateGet => player_state
  | PlayerStateSet v => player_state_setter v
  | Run => run
  | OnDraw => on_draw
  | OnKeyPress sy m => on_key_press sy m
  | OnKeyRelease sy m => on_key_release sy m
  | OnMouseMotion x y dx dy => on_mouse_motion x y dx dy
  | OnMouseRelease x y b m => on_mouse_release x y b m
  | OnUpdate dt => on_update dt
  end.

(** The state an operation leaves, whether it returned or raised. *)
Definition after (o : Op) (s : Sys) : Sys := snd (perform o s).

Definition outcome (o : Op) (s : Sys) : Exception + Value := fst (perform o s).

(** The state after a sequence of operations; the caller goes on after an
    operation that raised. *)
Definition after_all (ops : list Op) (s : Sys) : Sys :=
  fold_left (fun s o => after o s) ops s.

(** The states a [Core] can be in: those a sequence of operations leads to
    from a freshly constructed one. *)
Definition reachable (s : Sys) : Prop :=
  exists initial_gui_f game_spec ps ingame_gui_f ops,
    s = after_all ops (__init__ initial_gui_f game_spec ps ingame_gui_f).

(** The state in which one more call has been made on a collaborator. *)
Definition called (s : Sys) (rcv : Receiver) (c : Call) : Sys :=
  {| core := core s; store := store s; calls := calls s ++ [(rcv, c)] |}.

(** ** Which objects exist *)

Definition is_world (o : Obj) : bool :=
  match o with AWorld _ => true | _ => false end.

Definition is_gui_state (o : Obj) : bool :=
  match o with AGuiState _ => true | _ => false end.

Definition is_ingame_state (o : Obj) : bool :=
  match o with AnInGameState _ => true | _ => false end.

(** The references, from [n] on, of the objects of one class. *)
Fixpoint refs_from (k : Obj -> bool) (n : ref) (h : list Obj) : list ref :=
  match h with
  | [] => []
  | o :: h' => (if k o then [n] else []) ++ refs_from k (S n) h'
  end.

Definition instances (k : Obj -> bool) (s : Sys) : list ref :=
  refs_from k 0%nat (store s).

(** ** Views and controllers *)

(** Modelled from the spec: a state pairs a view and a controller; those of
    the [GuiState] are the ones of the GUI screen it displays, those of the
    [InGameState] are the ones of the world it was constructed with.  The
    classes are declared in [engine/gui] and [engine/ingame]. *)
Inductive View : Type :=
| GuiView (gui : GUI)
| InGameView (w : option ref).

Inductive Controller : Type :=
| GuiController (gui : GUI)
| InGameController (w : option ref).

Definition view (o : Obj) : option View :=
  match o with
  | AGuiState g => Some (GuiView (gs_gui g))
  | AnInGameState i => Some (InGameView (igs_world i))
  | AWorld _ => None
  end.

Definition controller (o : Obj) : option Controller :=
  match o with
  | AGuiState g => Some (GuiController (gs_gui g))
  | AnInGameState i => Some (InGameController (igs_world i))
  | AWorld _ => None
  end.

Definition active_state (s : Sys) : option Obj :=
  match current_state (core s) with
  | Some st => store s !! st
  | None => None
  end.

Definition active_view (s : Sys) : option View :=
  match active_state s with
  | Some o => view o
  | None => None
  end.

Definition active_controller (s : Sys) : option Controller :=
  match active_state s with
  | Some o => controller o
  | None => None
  end.

(** ** The operations by kind *)

Definition world_dependent (o : Op) : bool :=
  match o with
  | ChangeRegion _ _ | CreateSprite _ _ _ _ | GetKeyPoints _
  | PlayerStateGet | PlayerStateSet _ => true
  | _ => false
  end.

Definition callback_delegate (o : Op) : bool :=
  match o with
  | OnDraw | OnKeyPress _ _ | OnKeyRelease _ _ | OnMouseMotion _ _ _ _
  | OnMouseRelease _ _ _ _ | OnUpdate _ => true
  | _ => false
  end.

(** ** The shape of reachable states *)

Record well_formed (s : Sys) : Prop := {
  wf_gui_state :
    (exists g, store s !! gui_state (core s) = Some (AGuiState g)) /\
    instances is_gui_state s = [gui_state (core s)];
  wf_world :
    match world (core s) with
    | Some w =>
        (exists x, store s !! w = Some (AWorld x)) /\
        instances is_world s = [w]
    | None => instances is_world s = []
    end;
  wf_ingame_state :
    match ingame_state (core s) with
    | Some r =>
        (exists i, store s !! r = Some (AnInGameState i) /\
                   igs_world i = world (core s)) /\
        is_Some (world (core s)) /\
        instances is_ingame_state s = [r]
    | None => instances is_ingame_state s = []
    end;
  wf_current_state :
    match current_state (core s) with
    | Some r => r = gui_state (core s) \/ ingame_state (core s) = Some r
    | None => True
    end
}.

(** ** More about the operations and the calls they make *)

(** The operations that assign [current_state]: [start_game], [show_gui]
    and [run], which shows the initial GUI. *)
Definition activates (o : Op) : bool :=
  match o with
  | StartGame | ShowGui _ | Run => true
  | _ => false
  end.

(** Counting, among the calls made, the [setup()] calls on one object. *)
Definition is_setup_on (r : ref) (rc : Receiver * Call) : bool :=
  match rc with
  | (Object r', setup_) => Nat.eqb r' r
  | _ => false
  end.

Definition count_calls (p : Receiver * Call -> bool)
    (l : list (Receiver * Call)) : nat :=
  length (List.filter p l).



(** The two layouts of the shell: the [GuiState] alone, before the game is
    started, and the [GuiState], the [World] and the [InGameState], in the
    order they are constructed, once it is. *)
Definition laid_out (s : Sys) : Prop :=
  gui_state (core s) = 0%nat /\
  ((world (core s) = None /\ ingame_state (core s) = None /\
    length (store s) = 1%nat /\
    (current_state (core s) = None \/ current_state (core s) = Some 0%nat)) \/
   (world (core s) = Some 1%nat /\ ingame_state (core s) = Some 2%nat /\
    length (store s) = 3%nat /\
    (current_state (core s) = Some 0%nat \/
     current_state (core s) = Some 2%nat))).

(** The [setup()] calls are where they belong: none on an object that is
    not constructed yet, one on the [InGameState] once there is one. *)
Definition set_up_once (s : Sys) : Prop :=
  (forall r, (length (store s) <= r)%nat ->
             count_calls (is_setup_on r) (calls s) = 0%nat) /\
  match ingame_state (core s) with
  | Some r => count_calls (is_setup_on r) (calls s) = 1%nat
  | None => True
  end.

(** ** The start screen's action ([game/gui/start.py]) *)

(** [start_game(api)] of [game/gui/start.py]: it calls [api.start_game()]. *)
Definition gui_start_game (api : GameAPI) : M Value :=
  match api with
  | self => start_game
  end.

End Shell.

(** * The start screen ([game/gui/start.py])

    [StartScreen.__init__] opens the asset file, parses it with
    [json.loads] and calls [widgets.GUISpec] with the keyword
    [dimensions] followed by the entries of the parsed value.  Opening the
    file and parsing are done by Python's library: they are taken as
    functions of the path and of the text.  The model goes as far as the
    call of [GUISpec]: what it and [SpecGUI.__init__] do with the arguments
    is in modules that are not part of the files verified here. *)

Inductive StartScreenError : Type :=
| OSError
| JSONDecodeError
| TypeError.

(** What [json.loads] returns: a [dict] with string keys for a JSON
    object, a value of another type for any other JSON text. *)
Inductive Parsed (J : Type) : Type :=
| JsonObject (d : gmap string J)
| JsonOther (j : J).

Arguments JsonObject {J} d.
Arguments JsonOther {J} j.

(** A keyword argument of the call of [GUISpec]: the pair written in the
    call, or a value that came from the file. *)
Inductive Keyword (J : Type) : Type :=
| Dimensions (wh : Z * Z)
| FromFile (j : J).

Arguments Dimensions {J} wh.
Arguments FromFile {J} j.

(** The result is the arguments [SpecGUI.__init__] is reached with: [api]
    and the keywords [GUISpec] was called with.  A call that names a
    keyword and gets it again from a [**] mapping raises [TypeError], as
    does a [**] argument that is not a mapping. *)
Definition StartScreen__init__ {J : Type}
    (open_read : string -> option string)
    (json_loads : string -> option (Parsed J))
    (api : GameAPI) : StartScreenError + GameAPI * gmap string (Keyword J) :=
  match open_read "assets/gui/start-screen.json" with
  | None => inl OSError
  | Some text =>
      match json_loads text with
      | None => inl JSONDecodeError
      | Some (JsonOther _) => inl TypeError
      | Some (JsonObject data) =>
          match data !! "dimensions" with
          | Some _ => inl TypeError
          | None =>
              inr (api,
                   <["dimensions" := Dimensions (SCREEN_WIDTH, SCREEN_HEIGHT)]>
                     (FromFile <$> data))
          end
      end
  end.

(** A file system with the asset in it, and a parser that knows its text. *)
Definition demo_open_read (path : string) : option string :=
  if String.eqb path "assets/gui/start-screen.json"
  then Some "{ title: OSSU, buttons: start }"
  else None.

Definition demo_json_loads (text : string) : option (Parsed string) :=
  if String.eqb text "{ title: OSSU, buttons: start }"
  then Some (JsonObject {[ "title" := "OSSU"; "buttons" := "start" ]})
  else None.

(** A parser for an asset that brings its own [dimensions]. *)
Definition demo_json_loads_sized (text : string) : option (Parsed string) :=
  Some (JsonObject {[ "title" := text; "dimensions" := "1000x650" ]}).

(** ** A small game to run the shell on *)

Definition demo : Payload :=
  {| GUI := string; SpriteSpec := string; Script := string;
     PlayerState := list (string * Z); Time := float |}.

Definition demo_spec : @GameSpec demo :=
  {| sprites := {[ "player" := "sprites/player.json" ]} |}.

(** The shell as its constructor leaves it, and once the game is started. *)
Definition demo_fresh : @Sys demo :=
  @__init__ demo (fun _ => "start-screen") demo_spec [("health", 10)] None.

Definition demo_started : @Sys demo := after StartGame demo_fresh.

(** * Properties *)

Section Properties.
Context `{P : Payload}.

(** Unfolding a method down to the state it computes. *)
Ltac exec :=
  unfold after, outcome, perform, run, setup, start_game, change_region,
    show_gui, create_sprite, get_key_points, player_state,
    player_state_setter, on_draw, on_key_press, on_key_release,
    on_mouse_motion, on_mouse_release, on_update,
    bind, attr, assign, construct, call, mutate, ret, raise, called;
  simpl.

Lemma refs_from_app k n h o :
  refs_from k n (h ++ [o]) =
  refs_from k n h ++ (if k o then [(n + length h)%nat] else []).
Proof.
  revert n. induction h as [|x h IH]; intros n; simpl.
  - rewrite Nat.add_0_r. destruct (k o); reflexivity.
  - rewrite IH, <- app_assoc, Nat.add_succ_r. reflexivity.
Qed.

Lemma refs_from_alter k f r n h :
  (forall o, k (f o) = k o) ->
  refs_from k n (alter f r h) = refs_from k n h.
Proof.
  intros Hk. revert r n. induction h as [|x h IH]; intros r n.
  - reflexivity.
  - destruct r as [|r]; simpl.
    + rewrite Hk. reflexivity.
    + f_equal. apply IH.
Qed.

Lemma is_world_on_gui_state f o : is_world (on_gui_state f o) = is_world o.
Proof. destruct o; reflexivity. Qed.

Lemma is_gui_state_on_gui_state f o :
  is_gui_state (on_gui_state f o) = is_gui_state o.
Proof. destruct o; reflexivity. Qed.

Lemma is_ingame_state_on_gui_state f o :
  is_ingame_state (on_gui_state f o) = is_ingame_state o.
Proof. destruct o; reflexivity. Qed.

(** A call on the [GuiState] changes that object and no other. *)
Lemma lookup_on_gui_state f (h : list Obj) g r o :
  h !! g = Some (AGuiState o) ->
  alter (on_gui_state f) g h !! r =
  if decide (r = g) then Some (AGuiState (f o)) else h !! r.
Proof.
  intros Hg. destruct (decide (r = g)) as [->|Hne].
  - rewrite list_lookup_alter_eq, Hg. reflexivity.
  - rewrite list_lookup_alter_ne by congruence. reflexivity.
Qed.

Lemma well_formed__init__ ig sp ps igg : well_formed (__init__ ig sp ps igg).
Proof.
  split; simpl; try reflexivity.
  split; [eexists; reflexivity | reflexivity].
Qed.

(** Well-formedness looks at the fields and the store only. *)
Lemma well_formed_same s s' :
  core s' = core s -> store s' = store s -> well_formed s -> well_formed s'.
Proof.
  intros Hc Hs [H1 H2 H3 H4].
  split; unfold instances in *; rewrite ?Hc, ?Hs; assumption.
Qed.

(** A call on the [GuiState], with its effect on that object, keeps the
    state well formed. *)
Lemma well_formed_gui_call f s :
  well_formed s ->
  well_formed {| core := core s;
                 store := alter (on_gui_state f) (gui_state (core s)) (store s);
                 calls := calls s |}.
Proof.
  intros [[[g Hg] Hgs] Hw Hi Hc].
  split; unfold instances in *; simpl.
  - split.
    + eexists. rewrite (lookup_on_gui_state _ _ _ _ _ Hg).
      rewrite decide_True by reflexivity. reflexivity.
    + rewrite refs_from_alter by apply is_gui_state_on_gui_state. assumption.
  - rewrite refs_from_alter by apply is_world_on_gui_state.
    destruct (world (core s)) as [w|]; [|assumption].
    destruct Hw as [[x Hx] Hw]. split; [|assumption].
    exists x. rewrite (lookup_on_gui_state _ _ _ _ _ Hg).
    case_decide; subst; congruence.
  - rewrite refs_from_alter by apply is_ingame_state_on_gui_state.
    destruct (ingame_state (core s)) as [r|]; [|assumption].
    destruct Hi as ([i [Hi Hb]] & Hsome & Hrefs). repeat split; try assumption.
    exists i. split; [|assumption].
    rewrite (lookup_on_gui_state _ _ _ _ _ Hg).
    case_decide; subst; congruence.
  - assumption.
Qed.

(** Objects stay where they are when the store grows. *)
Ltac in_store :=
  first
    [ eassumption
    | apply list_lookup_middle; reflexivity
    | apply lookup_app_l_Some; in_store ].

Ltac break_up :=
  repeat match goal with
  | H : _ /\ _ |- _ => destruct H
  | H : exists _, _ |- _ => destruct H
  | H : is_Some None |- _ => destruct H; discriminate
  | H : refs_from _ _ _ = _ |- _ => rewrite H; clear H
  | |- _ /\ _ => split
  | |- exists _, _ => eexists
  | |- is_Some (Some _) => eexists; reflexivity
  end.

Lemma well_formed_start_game s :
  well_formed s -> well_formed (after StartGame s).
Proof.
  intros [[[g Hg] Hgs] Hw Hi Hc].
  destruct s as [c h l]. unfold instances in *. simpl in *. exec.
  destruct (world c) as [w|] eqn:Ew; simpl;
    destruct (ingame_state c) as [r|] eqn:Er; simpl.
  all: split; unfold instances; simpl; rewrite ?Ew, ?Er, ?refs_from_app; simpl.
  all: rewrite ?app_nil_r; break_up.
  all: try reflexivity; try in_store; try (right; reflexivity).
  all: try (rewrite length_app; simpl; f_equal; lia).
  all: reflexivity.
Qed.

Lemma well_formed_show_gui gui s :
  well_formed s -> well_formed (after (ShowGui gui) s).
Proof.
  intros H.
  apply (well_formed_gui_call (gui_state_set_gui gui)) in H.
  destruct H as [H1 H2 H3 H4]. exec.
  split; unfold instances in *; simpl in *; try assumption.
  left. reflexivity.
Qed.

Lemma well_formed_setup s : well_formed s -> well_formed (after Setup s).
Proof.
  intros H. apply (well_formed_gui_call gui_state_setup) in H.
  revert H. apply well_formed_same; reflexivity.
Qed.

Lemma after_Run s :
  after Run s =
  called (after (ShowGui (initial_gui (core s))) (after Setup s))
    Arcade arcade_run.
Proof. reflexivity. Qed.

(** Every operation keeps the state well formed. *)
Lemma well_formed_after o s : well_formed s -> well_formed (after o s).
Proof.
  intros H. destruct o.
  1: apply well_formed_setup; assumption.
  1: apply well_formed_start_game; assumption.
  2: apply well_formed_show_gui; assumption.
  6: { rewrite after_Run.
       apply (well_formed_same (after (ShowGui (initial_gui (core s)))
                                      (after Setup s)));
         [reflexivity | reflexivity |].
       apply well_formed_show_gui, well_formed_setup, H. }
  all: revert H; apply well_formed_same; exec.
  all: repeat match goal with
       | |- context [match ?x with _ => _ end] => destruct x; simpl
       end; reflexivity.
Qed.

Lemma after_all_app ops1 ops2 s :
  after_all (ops1 ++ ops2) s = after_all ops2 (after_all ops1 s).
Proof. apply fold_left_app. Qed.

Lemma well_formed_after_all ops s :
  well_formed s -> well_formed (after_all ops s).
Proof.
  revert s. induction ops as [|o ops IH]; intros s H; simpl.
  - assumption.
  - apply IH, well_formed_after, H.
Qed.

Lemma reachable_well_formed s : reachable s -> well_formed s.
Proof.
  intros (ig & sp & ps & igg & ops & ->).
  apply well_formed_after_all, well_formed__init__.
Qed.

Lemma reachable__init__ ig sp ps igg : reachable (__init__ ig sp ps igg).
Proof. exists ig, sp, ps, igg, []. reflexivity. Qed.

Lemma reachable_after o s : reachable s -> reachable (after o s).
Proof.
  intros (ig & sp & ps & igg & ops & ->).
  exists ig, sp, ps, igg, (ops ++ [o]). rewrite after_all_app. reflexivity.
Qed.

Lemma reachable_after_all ops s : reachable s -> reachable (after_all ops s).
Proof.
  revert s. induction ops as [|o ops IH]; intros s H; simpl.
  - assumption.
  - apply IH, reachable_after, H.
Qed.

(** Case analysis on every guard a method tests. *)
Ltac guards :=
  repeat match goal with
  | |- context [match ?x with _ => _ end] =>
      lazymatch x with
      | context [match _ with _ => _ end] => fail
      | _ => destruct x eqn:?; simpl
      end
  end.

(** No operation reassigns [gui_state], and none takes away a world, an
    in-game state or an active state that is there. *)
Lemma fields_kept o s :
  gui_state (core (after o s)) = gui_state (core s) /\
  (forall w, world (core s) = Some w -> world (core (after o s)) = Some w) /\
  (forall r, ingame_state (core s) = Some r ->
             ingame_state (core (after o s)) = Some r) /\
  (is_Some (current_state (core s)) ->
   is_Some (current_state (core (after o s)))).
Proof.
  destruct s as [c h l]; destruct o; exec; guards;
    repeat split; intros; simpl in *;
    try congruence; try assumption; try (eexists; reflexivity);
    try (eexists; eassumption).
Qed.

(** What one [start_game] does, in any state. *)
Lemma start_game_effect s :
  let s1 := after StartGame s in
  outcome StartGame s = inr NoneValue /\
  match world (core s) with
  | Some w =>
      world (core s1) = Some w /\
      instances is_world s1 = instances is_world s
  | None =>
      world (core s1) = Some (length (store s)) /\
      store s1 !! length (store s) =
        Some (AWorld {| w_api := self; w_spec := _spec (core s);
                        w_initial_player_state :=
                          initial_player_state (core s) |}) /\
      instances is_world s1 = instances is_world s ++ [length (store s)]
  end /\
  match ingame_state (core s) with
  | Some r =>
      ingame_state (core s1) = Some r /\
      instances is_ingame_state s1 = instances is_ingame_state s
  | None =>
      exists r,
        ingame_state (core s1) = Some r /\
        store s !! r = None /\
        store s1 !! r =
          Some (AnInGameState
                  {| igs_world := world (core s1);
                     igs_dimensions := (width (core s), height (core s));
                     igs_gui := ingame_gui (core s) |}) /\
        instances is_ingame_state s1 = instances is_ingame_state s ++ [r]
  end /\
  current_state (core s1) = ingame_state (core s1) /\
  is_Some (current_state (core s1)).
Proof.
  destruct s as [c h l]. unfold instances. exec.
  destruct (world c) as [w|] eqn:Ew; simpl;
    destruct (ingame_state c) as [r|] eqn:Er; simpl.
  all: rewrite ?Ew, ?Er, ?refs_from_app; simpl; rewrite ?app_nil_r.
  all: break_up; try reflexivity; try in_store.
  all: try (apply lookup_ge_None_2; rewrite ?length_app; simpl; lia).
  all: try (rewrite length_app; simpl; f_equal; f_equal; lia).
Qed.

(** A second [start_game] in succession finds nothing left to do. *)
Lemma start_game_twice s :
  perform StartGame (after StartGame s) = (inr NoneValue, after StartGame s).
Proof.
  destruct s as [c h l]. exec.
  destruct (world c) as [w|] eqn:Ew; simpl;
    destruct (ingame_state c) as [r|] eqn:Er; simpl;
    rewrite ?Ew, ?Er; simpl; rewrite ?Ew, ?Er;
    unfold with_current_state, with_ingame_state, with_world; simpl;
    rewrite ?Ew, ?Er; reflexivity.
Qed.

(** With a world and an in-game state in place, [start_game] only switches
    the active state. *)
Lemma start_game_switch_only s :
  is_Some (world (core s)) -> is_Some (ingame_state (core s)) ->
  perform StartGame s =
  (inr NoneValue,
   {| core := with_current_state (ingame_state (core s)) (core s);
      store := store s; calls := calls s |}).
Proof.
  destruct s as [c h l]. intros [w Hw] [r Hr]. simpl in *. exec.
  repeat (progress (rewrite ?Hw, ?Hr; cbn)). reflexivity.
Qed.

Lemma fields_kept_all ops s :
  gui_state (core (after_all ops s)) = gui_state (core s) /\
  (forall w, world (core s) = Some w ->
             world (core (after_all ops s)) = Some w) /\
  (forall r, ingame_state (core s) = Some r ->
             ingame_state (core (after_all ops s)) = Some r) /\
  (is_Some (current_state (core s)) ->
   is_Some (current_state (core (after_all ops s)))).
Proof.
  revert s. induction ops as [|o ops IH]; intros s; simpl.
  - repeat split; intros; assumption.
  - destruct (IH (after o s)) as (G & W & I & C).
    destruct (fields_kept o s) as (G' & W' & I' & C').
    repeat split; intros; try congruence; auto.
Qed.

(** C1: in every reachable state, [start_game] returns normally; it
    constructs a [World] only if the [world] field is [None] and an
    [InGameState] only if the [ingame_state] field is [None], the new state
    being bound to the world the field then holds; it makes [ingame_state]
    the current state.  A second call in succession changes nothing, any
    later call changes nothing but [current_state], and after the two calls
    there is exactly one [World] and exactly one [InGameState], the latter
    bound to the former. *)
Theorem start_game_constructs_once s :
  reachable s ->
  let s1 := after StartGame s in
  let s2 := after StartGame s1 in
  (outcome StartGame s = inr NoneValue /\
   match world (core s) with
   | Some w =>
       world (core s1) = Some w /\
       instances is_world s1 = instances is_world s
   | None =>
       world (core s1) = Some (length (store s)) /\
       store s1 !! length (store s) =
         Some (AWorld {| w_api := self; w_spec := _spec (core s);
                         w_initial_player_state :=
                           initial_player_state (core s) |}) /\
       instances is_world s1 = instances is_world s ++ [length (store s)]
   end /\
   match ingame_state (core s) with
   | Some r =>
       ingame_state (core s1) = Some r /\
       instances is_ingame_state s1 = instances is_ingame_state s
   | None =>
       exists r,
         ingame_state (core s1) = Some r /\
         store s !! r = None /\
         store s1 !! r =
           Some (AnInGameState
                   {| igs_world := world (core s1);
                      igs_dimensions := (width (core s), height (core s));
                      igs_gui := ingame_gui (core s) |}) /\
         instances is_ingame_state s1 = instances is_ingame_state s ++ [r]
   end /\
   current_state (core s1) = ingame_state (core s1)) /\
  (outcome StartGame s1 = inr NoneValue /\ s2 = s1) /\
  (exists w r i,
     world (core s2) = Some w /\ instances is_world s2 = [w] /\
     ingame_state (core s2) = Some r /\ instances is_ingame_state s2 = [r] /\
     store s2 !! r = Some (AnInGameState i) /\ igs_world i = Some w) /\
  (forall ops,
     let s' := after_all ops s1 in
     perform StartGame s' =
     (inr NoneValue,
      {| core := with_current_state (ingame_state (core s')) (core s');
         store := store s'; calls := calls s' |})).
Proof.
  intros Hr s1 s2.
  assert (E2 : s2 = s1).
  { unfold s2, s1, after at 1. rewrite start_game_twice. reflexivity. }
  destruct (start_game_effect s) as (H1 & H2 & H3 & H4 & H5).
  fold s1 in H2, H3, H4, H5.
  assert (Wf : well_formed s1)
    by (apply reachable_well_formed, reachable_after, Hr).
  assert (Hw : is_Some (world (core s1))).
  { destruct (world (core s)); destruct H2 as [-> _]; eexists; reflexivity. }
  assert (Hi : is_Some (ingame_state (core s1))) by (rewrite <- H4; exact H5).
  repeat split; try assumption.
  - unfold outcome, s1. rewrite start_game_twice. reflexivity.
  - rewrite E2. destruct Hw as [w Hw], Hi as [r Hi].
    destruct Wf as [_ Ww Wi _]. rewrite Hw in Ww. rewrite Hi, Hw in Wi.
    destruct Ww as [_ Ww]. destruct Wi as ((i & Hl & Hb) & _ & Wi).
    exists w, r, i. repeat split; assumption.
  - intros ops s'. destruct Hw as [w Hw], Hi as [r Hi].
    destruct (fields_kept_all ops s1) as (_ & W & I & _).
    apply start_game_switch_only; eexists; [apply W | apply I]; eassumption.
Qed.

(** C2: in every reachable state, an active state that is the in-game
    state has its model: when [current_state] is the [ingame_state] (or
    any [InGameState] object), the [world] field is not [None] and refers
    to a [World], the one that state is bound to. *)
Theorem active_state_has_its_model s :
  reachable s ->
  forall r,
    current_state (core s) = Some r ->
    (ingame_state (core s) = Some r \/
     exists i, store s !! r = Some (AnInGameState i)) ->
    exists w x i,
      world (core s) = Some w /\ store s !! w = Some (AWorld x) /\
      store s !! r = Some (AnInGameState i) /\ igs_world i = Some w.
Proof.
  intros Hr r Hc Hin.
  destruct (reachable_well_formed s Hr) as [[[g Hg] _] Ww Wi Wc].
  rewrite Hc in Wc.
  assert (Hi : ingame_state (core s) = Some r).
  { destruct Hin as [|[i Hi]]; [assumption|].
    destruct Wc as [->|]; [congruence | assumption]. }
  rewrite Hi in Wi. destruct Wi as ((i & Hl & Hb) & [w Hw] & _).
  rewrite Hw in Ww, Hb. destruct Ww as [[x Hx] _].
  exists w, x, i. repeat split; assumption.
Qed.

(** C3 (amended): each world-dependent operation raises the
    not-initialized error exactly when the [world] field is [None], and
    then leaves the state as it was.  With a world [w], [change_region],
    [get_key_points] and the [player_state] getter and setter make the
    corresponding call on [w] with the arguments they were given;
    [create_sprite] first looks [spec_name] up in the sprite table of the
    game specification: with the name present it calls [create_sprite] on
    [w] with the specification found, with the name absent the lookup
    raises [KeyError] and no call is made. *)
Theorem world_operations_guarded s o :
  world_dependent o = true ->
  (outcome o s = inl GameNotInitializedError <-> world (core s) = None) /\
  match world (core s) with
  | None => perform o s = (inl GameNotInitializedError, s)
  | Some w =>
      match o with
      | ChangeRegion n l =>
          perform o s =
          (inr NoneValue, called s (Object w) (load_region n l))
      | CreateSprite sn n l sc =>
          match sprites (_spec (core s)) !! sn with
          | Some sp =>
              perform o s =
              (inr NoneValue, called s (Object w) (create_sprite_ sp n l sc))
          | None => perform o s = (inl (KeyError sn), s)
          end
      | GetKeyPoints n =>
          perform o s =
          (inr (ResultOf (Object w) (get_key_points_ n)),
           called s (Object w) (get_key_points_ n))
      | PlayerStateGet =>
          perform o s =
          (inr (ResultOf (Object w) player_state_get),
           called s (Object w) player_state_get)
      | PlayerStateSet v =>
          perform o s =
          (inr NoneValue, called s (Object w) (player_state_set v))
      | _ => True
      end
  end.
Proof.
  intros Ho. destruct s as [c h l].
  destruct o; try discriminate Ho; exec;
    destruct (world c) as [w|] eqn:Ew; simpl;
    try destruct (sprites (_spec c) !! spec_name) eqn:Es; simpl;
    (split; [split; intros; congruence | reflexivity]).
Qed.

(** C4: each of the six callback delegates raises the not-initialized
    error exactly when [current_state] is [None], and then leaves the state
    as it was; otherwise it returns after passing its arguments, unchanged,
    to the view of the active state ([on_draw], once the window is
    cleared), to its controller (the four input callbacks) or to the state
    itself ([on_update]). *)
Theorem callbacks_guarded s o :
  callback_delegate o = true ->
  (outcome o s = inl GameNotInitializedError <->
   current_state (core s) = None) /\
  match current_state (core s) with
  | None => perform o s = (inl GameNotInitializedError, s)
  | Some st =>
      perform o s =
      (inr NoneValue,
       match o with
       | OnDraw => called (called s Window clear_) (ViewOf st) on_draw_
       | OnKeyPress sy m => called s (ControllerOf st) (on_key_press_ sy m)
       | OnKeyRelease sy m =>
           called s (ControllerOf st) (on_key_release_ sy m)
       | OnMouseMotion x y dx dy =>
           called s (ControllerOf st) (on_mouse_motion_ x y dx dy)
       | OnMouseRelease x y b m =>
           called s (ControllerOf st) (on_mouse_release_ x y b m)
       | OnUpdate dt => called s (Object st) (on_update_ dt)
       | _ => s
       end)
  end.
Proof.
  intros Ho. destruct s as [c h l].
  destruct o; try discriminate Ho; exec;
    destruct (current_state c) as [st|] eqn:Ec; simpl;
    (split; [split; intros; congruence | reflexivity]).
Qed.

(** C8: an operation that raises the not-initialized error has changed
    nothing: the fields of [Core], the objects and the calls made are what
    they were before the call. *)
Theorem not_initialized_is_atomic o s :
  outcome o s = inl GameNotInitializedError -> after o s = s.
Proof.
  destruct s as [c h l]. destruct o; exec; guards;
    intros H; try discriminate H; reflexivity.
Qed.

(** C9: once [show_gui] or [start_game] has set [current_state], it is
    not [None] in any state that follows, whatever operations are
    performed, and each of the six callback delegates returns normally
    there. *)
Theorem current_state_stays_set s o ops :
  (exists gui, o = ShowGui gui) \/ o = StartGame ->
  let s' := after_all ops (after o s) in
  is_Some (current_state (core s')) /\
  forall d, callback_delegate d = true -> outcome d s' = inr NoneValue.
Proof.
  intros Ho s'.
  assert (H0 : is_Some (current_state (core (after o s)))).
  { destruct Ho as [[gui ->] | ->].
    - destruct s as [c h l]. exec. eexists; reflexivity.
    - apply start_game_effect. }
  assert (H1 : is_Some (current_state (core s')))
    by (apply fields_kept_all, H0).
  split; [exact H1|].
  intros d Hd. destruct H1 as [st Hst]. generalize s' Hst d Hd. clear.
  intros [c h l] Hst d Hd. simpl in Hst.
  destruct d; try discriminate Hd; exec; rewrite Hst; reflexivity.
Qed.

(** C10: [show_gui] has no precondition.  In every state it returns
    normally, having told the [GuiState] to display the GUI and made it the
    current state; so it does in the state a constructor leaves, where
    [world], [ingame_state] and [current_state] are [None] and no call has
    been made yet. *)
Theorem show_gui_always_succeeds s gui :
  perform (ShowGui gui) s =
  (inr NoneValue,
   {| core := with_current_state (Some (gui_state (core s))) (core s);
      store := alter (on_gui_state (gui_state_set_gui gui))
                 (gui_state (core s)) (store s);
      calls := calls s ++ [(Object (gui_state (core s)), set_gui gui)] |}) /\
  outcome (ShowGui gui) s <> inl GameNotInitializedError /\
  forall ig sp ps igg,
    let s0 := __init__ ig sp ps igg in
    let s1 := after (ShowGui gui) s0 in
    (world (core s0) = None /\ ingame_state (core s0) = None /\
     current_state (core s0) = None /\ calls s0 = []) /\
    outcome (ShowGui gui) s0 = inr NoneValue /\
    current_state (core s1) = Some (gui_state (core s1)) /\
    calls s1 = [(Object (gui_state (core s1)), set_gui gui)] /\
    active_view s1 = Some (GuiView gui) /\
    active_controller s1 = Some (GuiController gui).
Proof.
  split; [reflexivity|]. split; [discriminate|].
  intros. repeat split; reflexivity.
Qed.

Lemma alter_keeps_world f g (h : list Obj) r x :
  h !! r = Some (AWorld x) ->
  alter (on_gui_state f) g h !! r = Some (AWorld x).
Proof.
  intros H. rewrite list_lookup_alter. case_decide; [|assumption].
  subst g. rewrite H. reflexivity.
Qed.

(** A [World] object is never changed or replaced in the store. *)
Lemma world_object_kept o s r x :
  store s !! r = Some (AWorld x) -> store (after o s) !! r = Some (AWorld x).
Proof.
  destruct s as [c h l]. simpl. intros H.
  destruct o; exec; guards;
    repeat first
      [ assumption | apply alter_keeps_world | apply lookup_app_l_Some ].
Qed.

(** Only [start_game] gives [Core] a world. *)
Lemma world_none_kept o s :
  world (core s) = None -> o <> StartGame ->
  world (core (after o s)) = None /\
  instances is_world (after o s) = instances is_world s.
Proof.
  destruct s as [c h l]. unfold instances. simpl. intros H Ho.
  destruct o; try congruence; exec; guards;
    rewrite ?refs_from_alter by apply is_world_on_gui_state;
    split; congruence.
Qed.

(** No operation resizes or renames the window. *)
Lemma window_kept o s :
  width (core (after o s)) = width (core s) /\
  height (core (after o s)) = height (core s) /\
  title (core (after o s)) = title (core s).
Proof.
  destruct s as [c h l]; destruct o; exec; guards; repeat split.
Qed.

(** C5: in every reachable state, [show_gui g] makes the [GuiState] the
    current state and tells it, as its last call, to display [g], after
    which the view and the controller of the active state are those of
    [g]; and [start_game] makes the in-game state the current state, after
    which the view and the controller of the active state are the in-game
    ones of the world the [world] field holds, the only [World] there
    is. *)
Theorem active_view_and_controller s :
  reachable s ->
  (forall gui,
     let s' := after (ShowGui gui) s in
     outcome (ShowGui gui) s = inr NoneValue /\
     current_state (core s') = Some (gui_state (core s')) /\
     last (calls s') = Some (Object (gui_state (core s')), set_gui gui) /\
     active_view s' = Some (GuiView gui) /\
     active_controller s' = Some (GuiController gui)) /\
  (let s' := after StartGame s in
   outcome StartGame s = inr NoneValue /\
   current_state (core s') = ingame_state (core s') /\
   exists w,
     world (core s') = Some w /\
     instances is_world s' = [w] /\
     active_view s' = Some (InGameView (Some w)) /\
     active_controller s' = Some (InGameController (Some w))).
Proof.
  intros Hr. split.
  - intros gui s'.
    destruct (reachable_well_formed s Hr) as [[[g Hg] _] _ _ _].
    unfold active_view, active_controller, active_state, s'.
    destruct s as [c h l]. exec. simpl in Hg.
    rewrite last_snoc, list_lookup_alter_eq, Hg. repeat split.
  - intros s'.
    assert (Wf : well_formed s')
      by (apply reachable_well_formed, reachable_after, Hr).
    destruct (start_game_effect s) as (H1 & _ & _ & H4 & [r H5]).
    fold s' in H4, H5. repeat split; try assumption.
    destruct Wf as [_ Ww Wi _]. rewrite <- H4, H5 in Wi.
    destruct Wi as ((i & Hl & Hb) & [w Hw] & _).
    rewrite Hw in Ww, Hb. destruct Ww as [_ Ww].
    exists w. unfold active_view, active_controller, active_state.
    rewrite H5, Hl. simpl. rewrite Hb. repeat split; assumption.
Qed.

(** C6: the [world] field is [None] when [Core] is constructed and stays
    so until the first [start_game], which constructs the one [World];
    from then on, in every reachable state, the field refers to that
    object, unchanged, and there is no other, whatever operations
    follow. *)
Theorem world_created_once_and_kept s :
  reachable s ->
  (forall ig sp ps igg ops,
     Forall (fun o => o <> StartGame) ops ->
     let s' := after_all ops (__init__ ig sp ps igg) in
     world (core s') = None /\ instances is_world s' = []) /\
  match world (core s) with
  | None =>
      instances is_world s = [] /\
      let s' := after StartGame s in
      world (core s') = Some (length (store s)) /\
      store s' !! length (store s) =
        Some (AWorld {| w_api := self; w_spec := _spec (core s);
                        w_initial_player_state :=
                          initial_player_state (core s) |}) /\
      instances is_world s' = [length (store s)]
  | Some w =>
      exists x,
        store s !! w = Some (AWorld x) /\
        forall ops,
          let s' := after_all ops s in
          world (core s') = Some w /\
          store s' !! w = Some (AWorld x) /\
          instances is_world s' = [w]
  end.
Proof.
  intros Hr. split.
  - intros ig sp ps igg ops Hops.
    assert (G : forall s0, world (core s0) = None ->
                world (core (after_all ops s0)) = None /\
                instances is_world (after_all ops s0) = instances is_world s0).
    { induction Hops as [|o ops Ho _ IH]; intros s0 H0; simpl.
      - split; [assumption | reflexivity].
      - destruct (world_none_kept o s0 H0 Ho) as [A B].
        destruct (IH _ A) as [C D]. split; congruence. }
    apply G. reflexivity.
  - destruct (reachable_well_formed s Hr) as [_ Ww _ _].
    destruct (world (core s)) as [w|] eqn:Ew.
    + destruct Ww as [[x Hx] _]. exists x. split; [assumption|].
      intros ops s'.
      assert (Hw' : world (core s') = Some w) by (apply fields_kept_all, Ew).
      split; [assumption|]. split.
      * unfold s'. clear - Hx. revert s Hx.
        induction ops as [|o ops IH]; intros s Hx; simpl; [assumption|].
        apply IH, world_object_kept, Hx.
      * assert (Wf : well_formed s')
          by (apply reachable_well_formed, reachable_after_all, Hr).
        destruct Wf as [_ Ww' _ _]. rewrite Hw' in Ww'. apply Ww'.
    + split; [assumption|].
      destruct (start_game_effect s) as (_ & H2 & _).
      rewrite Ew in H2. destruct H2 as (A & B & C).
      rewrite Ww in C. repeat split; assumption.
Qed.

(** C7: whatever the arguments of the constructor, the window is created
    1000 wide and 650 high with the title [OSSU Game Project]; no
    operation changes these. *)
Theorem window_parameters ig sp ps igg ops :
  let c := core (after_all ops (__init__ ig sp ps igg)) in
  width c = 1000 /\ height c = 650 /\ title c = "OSSU Game Project".
Proof.
  assert (G : forall s,
            width (core (after_all ops s)) = width (core s) /\
            height (core (after_all ops s)) = height (core s) /\
            title (core (after_all ops s)) = title (core s)).
  { induction ops as [|o ops IH]; intros s; simpl.
    - repeat split.
    - destruct (IH (after o s)) as (A & B & C).
      destruct (window_kept o s) as (A' & B' & C').
      repeat split; congruence. }
  apply G.
Qed.

(** * Further properties of the shell *)

Lemma current_state_none_kept o s :
  current_state (core s) = None -> activates o = false ->
  current_state (core (after o s)) = None.
Proof.
  destruct s as [c h l]. simpl. intros H Ho.
  destruct o; try discriminate Ho; exec; guards; congruence.
Qed.

(** X1: until [show_gui], [start_game] or [run] is called, [current_state]
    stays [None] and every callback delegate raises the not-initialized
    error, whatever else is called; [setup] alone does not make the
    callbacks usable. *)
Theorem callbacks_raise_until_activated ig sp ps igg ops d :
  Forall (fun o => activates o = false) ops ->
  callback_delegate d = true ->
  let s := after_all ops (__init__ ig sp ps igg) in
  current_state (core s) = None /\
  perform d s = (inl GameNotInitializedError, s).
Proof.
  intros Hops Hd s.
  assert (Hc : current_state (core s) = None).
  { unfold s. generalize (__init__ ig sp ps igg) (eq_refl : current_state (core (__init__ ig sp ps igg)) = None).
    induction Hops as [|o ops Ho _ IH]; intros s0 H0; simpl; [assumption|].
    apply IH, current_state_none_kept; assumption. }
  split; [assumption|]. revert Hc. generalize s. clear - Hd.
  intros [c h l] Hc. simpl in Hc.
  destruct d; try discriminate Hd; exec; rewrite Hc; reflexivity.
Qed.

(** X2: until [start_game] is called, every world-dependent operation
    raises the not-initialized error and changes nothing, also after
    [setup], [show_gui], [run] and callbacks. *)
Theorem world_operations_raise_until_started ig sp ps igg ops o :
  Forall (fun o => o <> StartGame) ops ->
  world_dependent o = true ->
  let s := after_all ops (__init__ ig sp ps igg) in
  world (core s) = None /\
  perform o s = (inl GameNotInitializedError, s).
Proof.
  intros Hops Ho s.
  assert (Hw : world (core s) = None).
  { unfold s. generalize (__init__ ig sp ps igg) (eq_refl : world (core (__init__ ig sp ps igg)) = None).
    induction Hops as [|o' ops Ho' _ IH]; intros s0 H0; simpl; [assumption|].
    apply IH. apply world_none_kept; assumption. }
  split; [assumption|]. revert Hw. generalize s. clear - Ho.
  intros [c h l] Hw. simpl in Hw.
  destruct o; try discriminate Ho; exec; rewrite Hw; reflexivity.
Qed.

(** X3: once [start_game] has been called, no world-dependent operation
    raises the not-initialized error again, whatever operations come in
    between. *)
Theorem world_operations_ready_after_start s ops o :
  world_dependent o = true ->
  outcome o (after_all ops (after StartGame s)) <>
  inl GameNotInitializedError.
Proof.
  intros Ho.
  assert (Hw : is_Some (world (core (after_all ops (after StartGame s))))).
  { destruct (start_game_effect s) as (_ & H2 & _).
    destruct (fields_kept_all ops (after StartGame s)) as (_ & W & _).
    destruct (world (core s)); destruct H2 as [H2 _];
      eexists; apply W; exact H2. }
  destruct Hw as [w Hw]. revert Hw.
  generalize (after_all ops (after StartGame s)). clear - Ho.
  intros [c h l] Hw. simpl in Hw.
  destruct o; try discriminate Ho; exec; rewrite Hw; simpl;
    guards; discriminate.
Qed.


Lemma laid_out_after o s : laid_out s -> laid_out (after o s).
Proof.
  destruct s as [c h l]. unfold laid_out. simpl.
  intros [Hg [(Hw & Hi & Hl & Hc) | (Hw & Hi & Hl & Hc)]].
  all: destruct o; exec; rewrite ?Hw, ?Hi, ?Hg; simpl;
    rewrite ?Hw, ?Hi, ?Hg; simpl; guards;
    rewrite ?length_app, ?length_alter, ?Hl; simpl;
    intuition congruence.
Qed.

Lemma laid_out_reachable s : reachable s -> laid_out s.
Proof.
  intros (ig & sp & ps & igg & ops & ->).
  assert (H0 : laid_out (__init__ ig sp ps igg)).
  { split; [reflexivity|]. left. repeat split. left. reflexivity. }
  revert H0. generalize (__init__ ig sp ps igg).
  induction ops as [|o ops IH]; intros s H; simpl; [assumption|].
  apply IH, laid_out_after, H.
Qed.

(** X5: in every reachable state the shell has one of two layouts.  The
    [GuiState] is the first object constructed; the world and the in-game
    state are there together or not at all, which makes one or three
    objects; without a world no in-game state is current; [current_state]
    is [None], the [GuiState] or the [InGameState], which are two
    objects. *)
Theorem shell_has_two_layouts s :
  reachable s ->
  gui_state (core s) = 0%nat /\
  (is_Some (world (core s)) <-> is_Some (ingame_state (core s))) /\
  length (store s) =
    match world (core s) with Some _ => 3%nat | None => 1%nat end /\
  match current_state (core s) with
  | None => world (core s) = None
  | Some r => r = gui_state (core s) \/ ingame_state (core s) = Some r
  end /\
  ingame_state (core s) <> Some (gui_state (core s)).
Proof.
  intros Hr. destruct (laid_out_reachable s Hr) as
    [Hg [(Hw & Hi & Hl & Hc) | (Hw & Hi & Hl & Hc)]];
    rewrite Hg, Hw, Hi, Hl; repeat split;
    try (intros [x Hx]; discriminate Hx); try discriminate;
    try (eexists; reflexivity);
    destruct Hc as [-> | ->]; auto.
Qed.





Lemma count_calls_app p l1 l2 :
  count_calls p (l1 ++ l2) = (count_calls p l1 + count_calls p l2)%nat.
Proof. unfold count_calls. rewrite List.filter_app, length_app. reflexivity. Qed.

Lemma set_up_once_after o s :
  laid_out s -> set_up_once s -> set_up_once (after o s).
Proof.
  destruct s as [c h l]. unfold laid_out, set_up_once. simpl.
  intros [Hg [(Hw & Hi & Hl & Hc) | (Hw & Hi & Hl & Hc)]] [H1 H2].
  all: rewrite Hi in H2.
  all: destruct o; exec; rewrite ?Hw, ?Hi, ?Hg; simpl;
    rewrite ?Hw, ?Hi, ?Hg; simpl; guards.
  all: try congruence.
  all: rewrite ?length_app, ?length_alter, ?Hl; simpl.
  all: split; [intros r Hr|]; rewrite ?count_calls_app.
  all: try rewrite H2.
  all: try (rewrite (H1 r) by lia).
  all: try (rewrite (H1 2%nat) by lia).
  all: try (destruct r as [|[|[|r]]]; try lia).
  all: try reflexivity.
  all: try exact I.
  all: simplify_eq; rewrite ?H2; cbn; lia.
Qed.

Lemma set_up_once_reachable s : reachable s -> set_up_once s.
Proof.
  intros (ig & sp & ps & igg & ops & ->).
  assert (H0 : set_up_once (__init__ ig sp ps igg))
    by (split; [reflexivity | exact I]).
  assert (L0 : laid_out (__init__ ig sp ps igg))
    by (apply laid_out_reachable, reachable__init__).
  revert H0 L0. generalize (__init__ ig sp ps igg).
  induction ops as [|o ops IH]; intros s H L; simpl; [assumption|].
  apply IH; [apply set_up_once_after | apply laid_out_after]; assumption.
Qed.

(** X7: the in-game state is set up exactly once.  In every reachable
    state with an in-game state, the calls made so far contain exactly one
    [setup()] on it, however often [start_game] has been called and
    whatever came in between; [Core.setup] and [run] set up the
    [GuiState] only. *)
Theorem ingame_state_set_up_once s r :
  reachable s ->
  ingame_state (core s) = Some r ->
  count_calls (is_setup_on r) (calls s) = 1%nat.
Proof.
  intros Hr Hi. destruct (set_up_once_reachable s Hr) as [_ H].
  rewrite Hi in H. exact H.
Qed.


(** The usual start of a game.  For all constructor arguments, [run]
    followed by the start screen's [start_game(api)] leaves the in-game
    state current, bound to the one world, after exactly four calls:
    [setup()] and [set_gui] on the [GuiState], [arcade.run()], and
    [setup()] on the new [InGameState]. *)
Example run_then_start_game ig sp ps igg :
  let s0 := __init__ ig sp ps igg in
  let s := snd (gui_start_game self (after Run s0)) in
  fst (gui_start_game self (after Run s0)) = inr NoneValue /\
  calls s = [(Object 0%nat, setup_); (Object 0%nat, set_gui (ig self));
             (Arcade, arcade_run); (Object 2%nat, setup_)] /\
  world (core s) = Some 1%nat /\
  ingame_state (core s) = Some 2%nat /\
  current_state (core s) = Some 2%nat /\
  store s !! 2%nat =
    Some (AnInGameState
            {| igs_world := Some 1%nat; igs_dimensions := (1000, 650);
               igs_gui := match igg with
                          | Some f => Some (f self)
                          | None => None
                          end |}) /\
  active_state (after (ShowGui (ig self)) s) =
    Some (AGuiState {| gs_api := self; gs_initial_gui := ig self;
                       gs_gui := ig self |}).
Proof. repeat split. Qed.

(** X9: the start screen's action readies the game in any state.
    [start_game(api)] of [game/gui/start.py] returns normally whenever it
    is triggered, even before [setup] or [run]; it leaves the in-game state
    current, and after it none of the world-dependent operations and none
    of the callback delegates raises the not-initialized error. *)
Theorem start_action_readies_the_game s o :
  world_dependent o = true \/ callback_delegate o = true ->
  let s' := snd (gui_start_game self s) in
  fst (gui_start_game self s) = inr NoneValue /\
  is_Some (world (core s')) /\
  is_Some (current_state (core s')) /\
  current_state (core s') = ingame_state (core s') /\
  outcome o s' <> inl GameNotInitializedError.
Proof.
  intros Ho s'. change s' with (after StartGame s).
  change (fst (gui_start_game self s)) with (outcome StartGame s).
  destruct (start_game_effect s) as (H1 & H2 & _ & H4 & H5).
  assert (Hw : is_Some (world (core (after StartGame s)))).
  { destruct (world (core s)); destruct H2 as [-> _]; eexists; reflexivity. }
  repeat split; try assumption.
  destruct Hw as [w Hw], H5 as [r Hc]. revert Hw Hc.
  generalize (after StartGame s). clear - Ho.
  intros [c h l] Hw Hc. simpl in Hw, Hc.
  destruct o; (destruct Ho as [Ho|Ho]; try discriminate Ho); exec;
    rewrite ?Hw, ?Hc; simpl; guards; discriminate.
Qed.

End Properties.

(** * Properties of the start screen *)

Section StartScreen.
Context {J : Type}.
Variable open_read : string -> option string.
Variable json_loads : string -> option (Parsed J).

(** X10: [StartScreen] gets as far as [GUISpec] exactly when the asset
    file can be read and parses to a JSON object without an entry
    [dimensions]; then [api] is handed on, the keyword [dimensions] is
    1000 x 650, and every other keyword is the entry of the file under that
    name, every entry of the file being passed. *)
Theorem start_screen_keywords api :
  (forall a kw,
     StartScreen__init__ open_read json_loads api = inr (a, kw) <->
     exists text data,
       open_read "assets/gui/start-screen.json" = Some text /\
       json_loads text = Some (JsonObject data) /\
       data !! "dimensions" = None /\
       a = api /\
       kw = <["dimensions" := Dimensions (1000, 650)]> (FromFile <$> data)) /\
  (forall a kw,
     StartScreen__init__ open_read json_loads api = inr (a, kw) ->
     kw !! "dimensions" = Some (Dimensions (1000, 650)) /\
     forall k data text,
       open_read "assets/gui/start-screen.json" = Some text ->
       json_loads text = Some (JsonObject data) ->
       k <> "dimensions" ->
       kw !! k = FromFile <$> (data !! k)).
Proof.
  unfold StartScreen__init__. split; intros a kw.
  - split.
    + destruct (open_read _) as [text|] eqn:Et; [|discriminate].
      destruct (json_loads text) as [[data|j]|] eqn:Ed; try discriminate.
      destruct (data !! "dimensions") eqn:E; [discriminate|].
      intros H. injection H as <- <-. exists text, data.
      repeat split; assumption.
    + intros (text & data & -> & -> & -> & -> & ->). reflexivity.
  - destruct (open_read _) as [text|] eqn:Et; [|discriminate].
    destruct (json_loads text) as [[data|j]|] eqn:Ed; try discriminate.
    destruct (data !! "dimensions") eqn:E; [discriminate|].
    intros H. injection H as <- <-. split.
    + apply lookup_insert_eq.
    + intros k data' text' Ht Hd Hk. injection Ht as <-.
      rewrite Hd in Ed. injection Ed as <-.
      rewrite lookup_insert_ne by congruence.
      apply lookup_fmap.
Qed.

(** X11: the asset file cannot set the size of the start screen: when it
    parses to an object with an entry [dimensions], whatever its value,
    the construction raises [TypeError] and [GUISpec] is not reached; so it
    does when the file parses to anything but an object. *)
Theorem start_screen_rejects_dimensions api text :
  open_read "assets/gui/start-screen.json" = Some text ->
  (forall data,
     json_loads text = Some (JsonObject data) ->
     is_Some (data !! "dimensions") ->
     StartScreen__init__ open_read json_loads api = inl TypeError) /\
  (forall j,
     json_loads text = Some (JsonOther j) ->
     StartScreen__init__ open_read json_loads api = inl TypeError).
Proof.
  intros Ht. unfold StartScreen__init__. rewrite Ht. split.
  - intros data -> [v ->]. reflexivity.
  - intros j ->. reflexivity.
Qed.

End StartScreen.

(** * The properties at work on the small game *)

#[local] Existing Instance demo.

Lemma reachable_demo_fresh : reachable demo_fresh.
Proof. apply reachable__init__. Qed.

Lemma reachable_demo_started : reachable demo_started.
Proof. apply reachable_after, reachable_demo_fresh. Qed.

Example demo_started_store :
  store demo_started =
  [AGuiState {| gs_api := self; gs_initial_gui := "start-screen";
                gs_gui := "start-screen" |};
   AWorld {| w_api := self; w_spec := demo_spec;
             w_initial_player_state := [("health", 10)] |};
   AnInGameState {| igs_world := Some 1%nat; igs_dimensions := (1000, 650);
                    igs_gui := None |}].
Proof. reflexivity. Qed.

Example demo_started_fields :
  world (core demo_started) = Some 1%nat /\
  gui_state (core demo_started) = 0%nat /\
  ingame_state (core demo_started) = Some 2%nat /\
  current_state (core demo_started) = Some 2%nat /\
  calls demo_started = [(Object 2%nat, setup_)].
Proof. repeat split; reflexivity. Qed.

Example demo_known_sprite :
  perform (CreateSprite "player" "hero" (3, 4) None) demo_started =
  (inr NoneValue,
   called demo_started (Object 1%nat)
     (create_sprite_ "sprites/player.json" "hero" (3, 4) None)).
Proof. vm_compute. reflexivity. Qed.

Lemma start_game_constructs_once_witness :
  reachable demo_fresh /\
  after StartGame (after StartGame demo_fresh) = after StartGame demo_fresh /\
  instances is_world (after StartGame (after StartGame demo_fresh)) = [1%nat].
Proof.
  split; [exact reachable_demo_fresh|].
  destruct (start_game_constructs_once demo_fresh reachable_demo_fresh)
    as (_ & [_ E] & _ & _).
  split; [exact E | reflexivity].
Defined.

Lemma active_state_has_its_model_witness :
  reachable demo_started /\
  current_state (core demo_started) = Some 2%nat /\
  exists w x i,
    world (core demo_started) = Some w /\
    store demo_started !! w = Some (AWorld x) /\
    store demo_started !! 2%nat = Some (AnInGameState i) /\
    igs_world i = Some w.
Proof.
  split; [exact reachable_demo_started|]. split; [reflexivity|].
  apply (active_state_has_its_model demo_started reachable_demo_started 2%nat).
  - reflexivity.
  - left. reflexivity.
Defined.

(** C3, as stated, fails: with a world in place, [create_sprite] under a
    name the sprite table does not have raises [KeyError] and makes no
    call on the world. *)
Lemma create_sprite_unknown_name_not_delegated :
  world (core demo_started) = Some 1%nat /\
  perform (CreateSprite "ghost" "g1" (3, 4) None) demo_started =
    (inl (KeyError "ghost"), demo_started) /\
  ~ exists sp,
      perform (CreateSprite "ghost" "g1" (3, 4) None) demo_started =
      (inr NoneValue,
       called demo_started (Object 1%nat) (create_sprite_ sp "g1" (3, 4) None)).
Proof.
  assert (E : perform (CreateSprite "ghost" "g1" (3, 4) None) demo_started =
              (inl (KeyError "ghost"), demo_started))
    by (vm_compute; reflexivity).
  split; [reflexivity|]. split; [exact E|].
  intros [sp H]. rewrite E in H. discriminate H.
Qed.

Lemma world_operations_guarded_witness :
  world_dependent (ChangeRegion "town" "gate") = true /\
  perform (ChangeRegion "town" "gate") demo_started =
    (inr NoneValue,
     called demo_started (Object 1%nat) (load_region "town" "gate")) /\
  perform (ChangeRegion "town" "gate") demo_fresh =
    (inl GameNotInitializedError, demo_fresh).
Proof.
  split; [reflexivity|]. split.
  - exact (proj2 (world_operations_guarded demo_started
                    (ChangeRegion "town" "gate") eq_refl)).
  - exact (proj2 (world_operations_guarded demo_fresh
                    (ChangeRegion "town" "gate") eq_refl)).
Defined.

Lemma callbacks_guarded_witness :
  callback_delegate (OnKeyPress 65 0) = true /\
  perform (OnKeyPress 65 0) demo_started =
    (inr NoneValue,
     called demo_started (ControllerOf 2%nat) (on_key_press_ 65 0)) /\
  perform (OnKeyPress 65 0) demo_fresh =
    (inl GameNotInitializedError, demo_fresh).
Proof.
  split; [reflexivity|]. split.
  - exact (proj2 (callbacks_guarded demo_started (OnKeyPress 65 0) eq_refl)).
  - exact (proj2 (callbacks_guarded demo_fresh (OnKeyPress 65 0) eq_refl)).
Defined.

Lemma active_view_and_controller_witness :
  reachable demo_started /\
  active_view (after (ShowGui "pause-menu") demo_started) =
    Some (GuiView "pause-menu") /\
  active_controller (after (ShowGui "pause-menu") demo_started) =
    Some (GuiController "pause-menu").
Proof.
  split; [exact reachable_demo_started|].
  destruct (active_view_and_controller demo_started reachable_demo_started)
    as [H _].
  destruct (H "pause-menu") as (_ & _ & _ & V & C).
  split; [exact V | exact C].
Defined.

Lemma world_created_once_and_kept_witness :
  reachable demo_started /\
  exists x,
    store demo_started !! 1%nat = Some (AWorld x) /\
    forall ops,
      let s' := after_all ops demo_started in
      world (core s') = Some 1%nat /\
      store s' !! 1%nat = Some (AWorld x) /\
      instances is_world s' = [1%nat].
Proof.
  split; [exact reachable_demo_started|].
  exact (proj2 (world_created_once_and_kept demo_started
                  reachable_demo_started)).
Defined.

Lemma not_initialized_is_atomic_witness :
  outcome OnDraw demo_fresh = inl GameNotInitializedError /\
  after OnDraw demo_fresh = demo_fresh.
Proof.
  split; [reflexivity|].
  apply (not_initialized_is_atomic OnDraw demo_fresh). reflexivity.
Defined.

Lemma current_state_stays_set_witness :
  let s' := after_all [ShowGui "pause-menu"; Setup; OnUpdate 0.015625%float]
              (after StartGame demo_fresh) in
  is_Some (current_state (core s')) /\
  forall d, callback_delegate d = true -> outcome d s' = inr NoneValue.
Proof.
  apply (current_state_stays_set demo_fresh StartGame).
  right. reflexivity.
Defined.

(** ** The further properties on the small game *)

Lemma callbacks_raise_until_activated_witness :
  Forall (fun o => activates o = false)
    [Setup; OnDraw; ChangeRegion "town" "gate"; Setup] /\
  callback_delegate (OnMouseMotion 10 20 1 (-1)) = true /\
  let s := after_all [Setup; OnDraw; ChangeRegion "town" "gate"; Setup]
             demo_fresh in
  current_state (core s) = None /\
  perform (OnMouseMotion 10 20 1 (-1)) s = (inl GameNotInitializedError, s).
Proof.
  assert (H : Forall (fun o : Op => activates o = false)
                [Setup; OnDraw; ChangeRegion "town" "gate"; Setup])
    by (repeat constructor).
  split; [exact H|]. split; [reflexivity|].
  exact (callbacks_raise_until_activated (fun _ => "start-screen") demo_spec
           [("health", 10)] None _ (OnMouseMotion 10 20 1 (-1)) H eq_refl).
Defined.

Lemma world_operations_raise_until_started_witness :
  Forall (fun o => o <> StartGame) [Run; ShowGui "options"; OnDraw] /\
  world_dependent PlayerStateGet = true /\
  let s := after_all [Run; ShowGui "options"; OnDraw] demo_fresh in
  world (core s) = None /\
  perform PlayerStateGet s = (inl GameNotInitializedError, s).
Proof.
  assert (H : Forall (fun o : Op => o <> StartGame)
                [Run; ShowGui "options"; OnDraw])
    by (repeat constructor; discriminate).
  split; [exact H|]. split; [reflexivity|].
  exact (world_operations_raise_until_started (fun _ => "start-screen")
           demo_spec [("health", 10)] None _ PlayerStateGet H eq_refl).
Defined.

Lemma world_operations_ready_after_start_witness :
  world_dependent (GetKeyPoints (Some "door")) = true /\
  outcome (GetKeyPoints (Some "door"))
    (after_all [ShowGui "pause-menu"; Setup] (after StartGame demo_fresh)) <>
  inl GameNotInitializedError.
Proof.
  split; [reflexivity|].
  apply (world_operations_ready_after_start demo_fresh _ _).
  reflexivity.
Defined.


Lemma shell_has_two_layouts_witness :
  reachable demo_started /\
  length (store demo_started) = 3%nat /\
  ingame_state (core demo_started) <> Some (gui_state (core demo_started)).
Proof.
  split; [exact reachable_demo_started|].
  destruct (shell_has_two_layouts demo_started reachable_demo_started)
    as (_ & _ & L & _ & N).
  split; [exact L | exact N].
Defined.


Lemma ingame_state_set_up_once_witness :
  let s := after_all [ShowGui "pause-menu"; StartGame; Setup; StartGame]
             demo_started in
  reachable s /\
  ingame_state (core s) = Some 2%nat /\
  count_calls (is_setup_on 2%nat) (calls s) = 1%nat.
Proof.
  intros s.
  assert (R : reachable s)
    by (apply reachable_after_all, reachable_demo_started).
  split; [exact R|]. split; [reflexivity|].
  exact (ingame_state_set_up_once s 2%nat R eq_refl).
Defined.

Lemma start_action_readies_the_game_witness :
  world_dependent (PlayerStateSet [("health", 9)]) = true /\
  fst (gui_start_game self demo_fresh) = inr NoneValue /\
  outcome (PlayerStateSet [("health", 9)])
    (snd (gui_start_game self demo_fresh)) <> inl GameNotInitializedError.
Proof.
  split; [reflexivity|].
  destruct (start_action_readies_the_game demo_fresh
              (PlayerStateSet ([("health", 9)] : @PlayerState demo))
              (or_introl eq_refl))
    as (H & _ & _ & _ & N).
  split; [exact H | exact N].
Defined.

Lemma start_screen_keywords_witness :
  exists kw,
    StartScreen__init__ demo_open_read demo_json_loads self = inr (self, kw) /\
    kw !! "dimensions" = Some (Dimensions (1000, 650)) /\
    kw !! "title" = Some (FromFile "OSSU").
Proof.
  eexists. split; [reflexivity|].
  destruct (start_screen_keywords demo_open_read demo_json_loads self)
    as [_ H].
  destruct (H self _ eq_refl) as [D K].
  split; [exact D|].
  exact (K "title" _ _ eq_refl eq_refl ltac:(discriminate)).
Defined.

Lemma start_screen_rejects_dimensions_witness :
  demo_open_read "assets/gui/start-screen.json" =
    Some "{ title: OSSU, buttons: start }" /\
  StartScreen__init__ demo_open_read demo_json_loads_sized self =
    inl TypeError.
Proof.
  split; [reflexivity|].
  destruct (start_screen_rejects_dimensions demo_open_read
              demo_json_loads_sized self _ eq_refl) as [H _].
  apply (H _ eq_refl). eexists. vm_compute. reflexivity.
Defined.
